(** * jira-time-logger: the worklog line pattern and the [vimlog] policy

    A shallow embedding of [jira_time_logger.py].

    - Python [str] values are lists of characters.  Characters are the code
      points 0..255 (type [ascii]); on that range the classes [\s], [\w],
      [\d] below are the ones CPython's [re] uses for [str] patterns.
    - [WORKLOG_RX] is the compiled pattern, written as a syntax tree; [re_match]
      is the backtracking matcher that [re.match] runs on it (greedy
      quantifiers, leftmost alternative first, anchored at the start of the
      subject and not at its end).
    - The commands run in a small exception-and-state monad over a [world]
      holding standard input, standard output and the log of calls made to the
      tracker client. *)

From Stdlib Require Import List Ascii String ZArith Lia Bool Permutation.
From Stdlib Require Import DecimalString.
From Stdlib Require DecimalZ.
Import ListNotations.

Set Implicit Arguments.
Local Open Scope Z_scope.

(** ** Strings *)

Definition str := list ascii.

(** A Python string literal. *)
Definition lit (s : string) : str := list_ascii_of_string s.

(** ** Character classes of [re] *)

Module CharClass.

Definition code (c : ascii) : N := N_of_ascii c.

Definition between (lo hi : N) (c : ascii) : bool :=
  (N.leb lo (code c) && N.leb (code c) hi)%bool.

Definition one_of (cs : list ascii) (c : ascii) : bool :=
  existsb (Ascii.eqb c) cs.

(** [\s]: TAB LF VT FF CR, FS GS RS US, SPACE, NEL, NBSP. *)
Definition is_space (c : ascii) : bool :=
  (between 9 13 c || between 28 32 c
   || N.eqb (code c) 133 || N.eqb (code c) 160)%bool.

(** [\d]: the decimal digits. *)
Definition is_digit (c : ascii) : bool := between 48 57 c.

(** [[A-Z]] *)
Definition is_upper (c : ascii) : bool := between 65 90 c.

(** [\w]: alphanumerics and the underscore. *)
Definition is_word (c : ascii) : bool :=
  (is_digit c || is_upper c || between 97 122 c || N.eqb (code c) 95
   || one_of ["170"; "178"; "179"; "181"; "185"; "186";
              "188"; "189"; "190"]%char c
   || between 192 214 c || between 216 246 c || between 248 255 c)%bool.

(** [\W] *)
Definition is_nonword (c : ascii) : bool := negb (is_word c).

(** [[\. x]] *)
Definition is_state (c : ascii) : bool := one_of ["."; " "; "x"]%char c.

(** [[\w\s\.,;\-\/]] *)
Definition is_comment (c : ascii) : bool :=
  (is_word c || is_space c || one_of ["."; ","; ";"; "-"; "/"]%char c)%bool.

(** [[\.\;\,\s]] *)
Definition is_tracking (c : ascii) : bool :=
  (one_of ["."; ";"; ","]%char c || is_space c)%bool.

End CharClass.
Import CharClass.

(** ** Patterns and match objects *)

(** The named groups of [WORKLOG_RX]. *)
Inductive gname := Gstate | Gprefix | Gcomment | Gtime | Gissue | Gtracking.

(** What [match.group(name)] returns for each name: [None] for a group that
    took no part in the match. *)
Record groups := mkGroups {
  g_state : option str;
  g_prefix : option str;
  g_comment : option str;
  g_time : option str;
  g_issue : option str;
  g_tracking : option str }.

Definition no_groups : groups := mkGroups None None None None None None.

Definition group (n : gname) (g : groups) : option str :=
  match n with
  | Gstate => g_state g
  | Gprefix => g_prefix g
  | Gcomment => g_comment g
  | Gtime => g_time g
  | Gissue => g_issue g
  | Gtracking => g_tracking g
  end.

Definition set_group (n : gname) (v : str) (g : groups) : groups :=
  match n with
  | Gstate => mkGroups (Some v) (g_prefix g) (g_comment g) (g_time g) (g_issue g) (g_tracking g)
  | Gprefix => mkGroups (g_state g) (Some v) (g_comment g) (g_time g) (g_issue g) (g_tracking g)
  | Gcomment => mkGroups (g_state g) (g_prefix g) (Some v) (g_time g) (g_issue g) (g_tracking g)
  | Gtime => mkGroups (g_state g) (g_prefix g) (g_comment g) (Some v) (g_issue g) (g_tracking g)
  | Gissue => mkGroups (g_state g) (g_prefix g) (g_comment g) (g_time g) (Some v) (g_tracking g)
  | Gtracking => mkGroups (g_state g) (g_prefix g) (g_comment g) (g_time g) (g_issue g) (Some v)
  end.

(** The fragment of [re] syntax the pattern uses: literals, one character of a
    class, greedy [*] and [+] over a class, concatenation, a greedy optional
    sub-pattern and named groups. *)
Inductive regex :=
| Lit (c : ascii)
| Cls (p : ascii -> bool)
| Star (p : ascii -> bool)
| Plus (p : ascii -> bool)
| Seq (r1 r2 : regex)
| Opt (r : regex)
| Group (n : gname) (r : regex).

Fixpoint seq (rs : list regex) (last : regex) : regex :=
  match rs with
  | [] => last
  | r :: rs' => Seq r (seq rs' last)
  end.

(** The compiled pattern, piece by piece as the source writes it: a dash,
    [\s+], an opening bracket, group [state] = one of dot, space, x, a closing
    bracket, [\s*]; group [prefix] = greedy run of [\W], [\s+]; group
    [comment] = [\w \s . , ; - /] one or more times, [\s+]; optionally group
    [time] = an at-sign and [\d+], then [\s*]; a dash and one space, group
    [issue] = [A-Z]+ dash [\d+], [\s+]; an opening bracket, greedy run of
    [\d], group [tracking] = greedy run of [. ; , \s], a closing bracket. *)
Definition WORKLOG_RX : regex :=
  seq [ Lit "-"; Plus is_space; Lit "["; Group Gstate (Cls is_state); Lit "]";
        Star is_space;
        Group Gprefix (Star is_nonword); Plus is_space;
        Group Gcomment (Plus is_comment); Plus is_space;
        Opt (Group Gtime (Seq (Lit "@") (Plus is_digit))); Star is_space;
        Lit "-"; Lit " ";
        Group Gissue (Seq (Plus is_upper) (Seq (Lit "-") (Plus is_digit)));
        Plus is_space;
        Lit "["; Star is_digit; Group Gtracking (Star is_tracking) ]
      (Lit "]").

(** *** The backtracking matcher

    [k] is what remains to be matched after the current sub-pattern; it gets
    the unread rest of the subject and the groups set so far.  A failing [k]
    makes the sub-pattern try its next alternative. *)

Section Matcher.
Variable A : Type.

(** Greedy repetition of a class: read as many characters as the class
    allows, then give them back one at a time. *)
Fixpoint star_cls (p : ascii -> bool) (s : str) (k : str -> option A) : option A :=
  match s with
  | c :: s' =>
      if p c then
        match star_cls p s' k with
        | Some a => Some a
        | None => k s
        end
      else k s
  | [] => k []
  end.

Definition plus_cls (p : ascii -> bool) (s : str) (k : str -> option A) : option A :=
  match s with
  | c :: s' => if p c then star_cls p s' k else None
  | [] => None
  end.

(** The text read between subject suffix [s] and its later suffix [s']. *)
Definition consumed (s s' : str) : str :=
  firstn (List.length s - List.length s')%nat s.

Fixpoint rmatch (r : regex) (s : str) (g : groups)
         (k : str -> groups -> option A) : option A :=
  match r with
  | Lit c =>
      match s with
      | c' :: s' => if Ascii.eqb c' c then k s' g else None
      | [] => None
      end
  | Cls p =>
      match s with
      | c' :: s' => if p c' then k s' g else None
      | [] => None
      end
  | Star p => star_cls p s (fun s' => k s' g)
  | Plus p => plus_cls p s (fun s' => k s' g)
  | Seq r1 r2 => rmatch r1 s g (fun s' g' => rmatch r2 s' g' k)
  | Opt r' =>
      match rmatch r' s g k with
      | Some a => Some a
      | None => k s g
      end
  | Group n r' =>
      rmatch r' s g (fun s' g' => k s' (set_group n (consumed s s') g'))
  end.
End Matcher.

(** [rx.match(line)]: the match object, or [None]. *)
Definition re_match (rx : regex) (line : str) : option groups :=
  rmatch rx line no_groups (fun _ g => Some g).


(** ** Built-ins used by the commands *)

Definition str_eqb (a b : str) : bool :=
  if list_eq_dec ascii_dec a b then true else false.

(** [f'{n}'] for a Python [int]. *)
Definition format_int (n : Z) : str :=
  lit (NilEmpty.string_of_int (Z.to_int n)).

(** ** The Duration Accumulator

    [[
    minutes = 0
    for c in match.group('tracking'):
        if c == '.': minutes += 30
        if c == ';': minutes += 15
        if c == ',': minutes += 5
    ]] *)
Definition accumulate_step (minutes : Z) (c : ascii) : Z :=
  let minutes := if Ascii.eqb c "." then minutes + 30 else minutes in
  let minutes := if Ascii.eqb c ";" then minutes + 15 else minutes in
  let minutes := if Ascii.eqb c "," then minutes + 5 else minutes in
  minutes.

Definition accumulate (tracking : str) : Z :=
  fold_left accumulate_step tracking 0.

(** The weight table of the specification, to compare [accumulate] with. *)
Definition spec_weight (c : ascii) : Z :=
  if Ascii.eqb c "." then 30
  else if Ascii.eqb c ";" then 15
  else if Ascii.eqb c "," then 5
  else 0.

Fixpoint spec_weight_sum (tracking : str) : Z :=
  match tracking with
  | [] => 0
  | c :: t => spec_weight c + spec_weight_sum t
  end.

(** ** Effects *)

(** One call into the [jira] client library.  [match.group] may return
    [None], and [vimlog] passes its results on as they are, so the [issue] and
    [comment] arguments of [add_worklog] are optional strings. *)
Inductive tracker_call :=
| JIRA (server user password : str)
| Issue (key : str)
| AddWorklog (issue : option str) (timeSpent : str) (comment : option str)
| SearchIssues (jql : str).

Inductive exit_arg := ExitCode (n : Z) | ExitMsg (msg : str).

Inductive exn := EOFError | TypeError | JIRAError | SystemExit (a : exit_arg).

Inductive result (A : Type) := Ok (a : A) | Raise (e : exn).
Arguments Raise {A} e.

(** What the process can touch: the lines waiting on standard input, the
    lines printed, and the calls made to the tracker so far. *)
Record world := mkWorld {
  stdin : list str;
  stdout : list str;
  calls : list tracker_call }.

Definition M (A : Type) : Type := world -> result A * world.

Definition ret {A} (a : A) : M A := fun w => (Ok a, w).

Definition bind {A B} (m : M A) (f : A -> M B) : M B :=
  fun w =>
    match m w with
    | (Ok a, w') => f a w'
    | (Raise e, w') => (Raise e, w')
    end.

Definition raise {A} (e : exn) : M A := fun w => (Raise e, w).

Notation "x <- m ;; f" := (bind m (fun x => f))
  (at level 61, m at next level, right associativity).
Notation "m ;; f" := (bind m (fun _ => f))
  (at level 61, right associativity).

(** [input()]: the next line without its newline; [EOFError] at end of input. *)
Definition input : M str :=
  fun w =>
    match stdin w with
    | l :: rest => (Ok l, mkWorld rest (stdout w) (calls w))
    | [] => (Raise EOFError, w)
    end.

(** [print(s)] *)
Definition print (s : str) : M unit :=
  fun w => (Ok tt, mkWorld (stdin w) (stdout w ++ [s]) (calls w)).

(** [sys.exit(arg)] *)
Definition sys_exit {A} (a : exit_arg) : M A := raise (SystemExit a).

(** The status the interpreter exits with: 0 after a normal return, the
    integer given to [sys.exit], and 1 for [sys.exit(message)] and for any
    other uncaught exception. *)
Definition exit_status {A} (r : result A) : Z :=
  match r with
  | Ok _ => 0
  | Raise (SystemExit (ExitCode n)) => n
  | Raise _ => 1
  end.

(** The collaborators outside the repository: the tracker service behind the
    [jira] library, the [keyring] store, the process environment and the
    help text [argparse] generates. *)
Record externals := mkExternals {
  tracker_accepts : tracker_call -> bool;
  tracker_search : str -> list (str * str);
  keyring_get_password : str -> str -> option str;
  getenv : str -> option str;
  help_text : str }.

Section Commands.
Variable ext : externals.

(** A call into the [jira] library: it is logged, and raises when the
    tracker rejects it. *)
Definition call_tracker (c : tracker_call) : M unit :=
  fun w =>
    let w' := mkWorld (stdin w) (stdout w) (calls w ++ [c]) in
    if tracker_accepts ext c then (Ok tt, w') else (Raise JIRAError, w').

(** [[
def log(args):
    issue = args.jira.issue(args.issue)
    args.jira.add_worklog(issue=issue, timeSpent=args.amount,
                          comment=args.comment)
]] *)
Definition log (issue amount comment : str) : M unit :=
  call_tracker (Issue issue) ;;
  call_tracker (AddWorklog (Some issue) amount (Some comment)).

(** [[
def vimlog(args):
    line = input()
    match = WORKLOG_RX.match(line)
    if not match:
        print(line + '?')
        return
    if match.group('state') == 'x':
        print(line + '!')
        return
    minutes = 0
    for c in match.group('tracking'): ...
    if minutes > 0:
        args.jira.add_worklog(issue=match.group('issue'),
                              timeSpent=f'{minutes}m',
                              comment=match.group('comment'))
        print('- [x]' + line[5:])
    else:
        print(line)
]] *)
Definition vimlog : M unit :=
  line <- input ;;
  match re_match WORKLOG_RX line with
  | None => print (line ++ lit "?")
  | Some m =>
      if match group Gstate m with
         | Some s => str_eqb s (lit "x")
         | None => false
         end
      then print (line ++ lit "!")
      else
        match group Gtracking m with
        | None => raise TypeError
        | Some tracking =>
            let minutes := accumulate tracking in
            if minutes >? 0 then
              call_tracker (AddWorklog (group Gissue m)
                                       (format_int minutes ++ lit "m")
                                       (group Gcomment m)) ;;
              print (lit "- [x]" ++ skipn 5 line)
            else print line
        end
  end.

(** [[
def issues(args):
    for issue in args.jira.search_issues('assignee = currentUser()'):
        print('{}: {}'.format(issue.key, issue.fields.summary))
]] *)
Fixpoint print_issues (l : list (str * str)) : M unit :=
  match l with
  | [] => ret tt
  | (key, summary) :: l' =>
      print (key ++ lit ": " ++ summary) ;; print_issues l'
  end.

Definition issues : M unit :=
  let jql := lit "assignee = currentUser()" in
  call_tracker (SearchIssues jql) ;;
  print_issues (tracker_search ext jql).

(** The sub-command selected on the command line, with its positional
    arguments. *)
Inductive command :=
| CmdLog (issue amount comment : str)
| CmdVimlog
| CmdIssues.

(** The namespace [parser.parse_args()] returns.  [func] is missing when
    no sub-command was given. *)
Record args := mkArgs {
  jira_server : option str;
  jira_user : option str;
  func : option command }.

(** [server_arg] and [user_arg]: the defaults of [--jira-server] and
    [--jira-user] are [os.getenv('JIRA_SERVER')] and [os.getenv('JIRA_USER')],
    [None] when the variable is not set. *)
Definition server_arg : option str := getenv ext (lit "JIRA_SERVER").

Definition user_arg : option str := getenv ext (lit "JIRA_USER").

(** The value [argparse] stores for an option: the one given on the command
    line, else the default. *)
Definition option_value (given default : option str) : option str :=
  match given with
  | Some v => Some v
  | None => default
  end.

Definition parse_args (server_opt user_opt : option str)
           (cmd : option command) : args :=
  mkArgs (option_value server_opt server_arg)
         (option_value user_opt user_arg)
         cmd.

(** [[
def make_jira_client(args):
    if args.jira_server is None:
        sys.exit('Please set JIRA_SERVER or provide --jira-server argument')
    if args.jira_user is None:
        sys.exit('Please set JIRA_USER or provide --jira-user argument')
    password = keyring.get_password(args.jira_server, args.jira_user)
    if password is None:
        sys.exit('Please add password to keyring (run "keyring set {} {}")'
                 .format(args.jira_server, args.jira_user))
    return jira.JIRA(args.jira_server, basic_auth=(args.jira_user, password))
]] *)
Definition make_jira_client (a : args) : M unit :=
  match jira_server a with
  | None =>
      sys_exit (ExitMsg
        (lit "Please set JIRA_SERVER or provide --jira-server argument"))
  | Some server =>
      match jira_user a with
      | None =>
          sys_exit (ExitMsg
            (lit "Please set JIRA_USER or provide --jira-user argument"))
      | Some user =>
          match keyring_get_password ext server user with
          | None =>
              sys_exit (ExitMsg
                (lit "Please add password to keyring (run " ++ ["034"%char]
                 ++ lit "keyring set " ++ server ++ lit " " ++ user
                 ++ ["034"%char] ++ lit ")"))
          | Some password => call_tracker (JIRA server user password)
          end
      end
  end.

Definition run_command (c : command) : M unit :=
  match c with
  | CmdLog issue amount comment => log issue amount comment
  | CmdVimlog => vimlog
  | CmdIssues => issues
  end.

(** [[
def main():
    args = parser.parse_args()
    if callable(getattr(args, 'func', None)):
        args.jira = make_jira_client(args)
        args.func(args)
    else:
        parser.print_help()
        sys.exit(1)
]] *)
Definition main (server_opt user_opt : option str) (cmd : option command) : M unit :=
  let a := parse_args server_opt user_opt cmd in
  match func a with
  | Some c => make_jira_client a ;; run_command c
  | None => print (help_text ext) ;; sys_exit (ExitCode 1)
  end.

End Commands.


(** ** What the pattern means

    [matches r s g g'] : the text [s] is in the language of [r], and reading
    it turns the groups [g] into [g'].  This is the declarative reading of the
    pattern, independent of the order in which the matcher tries things. *)
Inductive matches : regex -> str -> groups -> groups -> Prop :=
| M_Lit c g : matches (Lit c) [c] g g
| M_Cls (p : ascii -> bool) c g : p c = true -> matches (Cls p) [c] g g
| M_Star p s g : forallb p s = true -> matches (Star p) s g g
| M_Plus p s g : s <> [] -> forallb p s = true -> matches (Plus p) s g g
| M_Seq r1 r2 s1 s2 g g1 g2 :
    matches r1 s1 g g1 -> matches r2 s2 g1 g2 ->
    matches (Seq r1 r2) (s1 ++ s2) g g2
| M_OptTaken r s g g' : matches r s g g' -> matches (Opt r) s g g'
| M_OptSkipped r g : matches (Opt r) [] g g
| M_Group n r s g g' :
    matches r s g g' -> matches (Group n r) s g (set_group n s g').

(** A line has the worklog shape when some prefix of it is in the language of
    the pattern ([re.match] does not anchor the end). *)
Definition worklog_shape (line : str) : Prop :=
  exists s rest g, line = s ++ rest /\ matches WORKLOG_RX s no_groups g.

(** A non-empty run of characters of one class. *)
Definition run1 (p : ascii -> bool) (s : str) : Prop :=
  s <> [] /\ forallb p s = true.

(** The text of the optional [@digits] annotation. *)
Definition time_text (t : option str) : str :=
  match t with Some s => s | None => [] end.

(** The line cut into all the pieces of the pattern, with every group set
    from its piece. *)
Definition worklog_parts (line : str) (g : groups) : Prop :=
  exists ws1 st ws2 prefix ws3 comment ws4 time ws5 up dg ws6 digs tracking rest,
    line = lit "-" ++ ws1 ++ lit "[" ++ [st] ++ lit "]" ++ ws2
           ++ prefix ++ ws3 ++ comment ++ ws4 ++ time_text time ++ ws5
           ++ lit "- " ++ (up ++ lit "-" ++ dg) ++ ws6
           ++ lit "[" ++ digs ++ tracking ++ lit "]" ++ rest
    /\ run1 is_space ws1 /\ is_state st = true
    /\ forallb is_space ws2 = true
    /\ forallb is_nonword prefix = true /\ run1 is_space ws3
    /\ run1 is_comment comment /\ run1 is_space ws4
    /\ (time = None \/ exists d, time = Some ("@"%char :: d) /\ run1 is_digit d)
    /\ forallb is_space ws5 = true
    /\ run1 is_upper up /\ run1 is_digit dg /\ run1 is_space ws6
    /\ forallb is_digit digs = true /\ forallb is_tracking tracking = true
    /\ g = mkGroups (Some [st]) (Some prefix) (Some comment) time
                    (Some (up ++ lit "-" ++ dg)) (Some tracking).

(** ** Notions the specification uses *)

(** "The line with its state marker rewritten to complete while preserving
    the remainder of the line unchanged": the character after the dash, the
    whitespace run and the opening bracket becomes [x]. *)
Fixpoint mark_after_bracket (s : str) : str :=
  match s with
  | c :: s' =>
      if is_space c then c :: mark_after_bracket s'
      else match s' with
           | _ :: t => c :: "x"%char :: t
           | [] => s
           end
  | [] => []
  end.

Definition mark_complete (line : str) : str :=
  match line with
  | dash :: s => dash :: mark_after_bracket s
  | [] => []
  end.

(** "Whitespace-trimmed": equal to its own [str.strip()]. *)
Fixpoint lstrip (s : str) : str :=
  match s with
  | c :: s' => if is_space c then lstrip s' else s
  | [] => []
  end.

Definition strip (s : str) : str := rev (lstrip (rev (lstrip s))).

Definition trimmed (s : str) : Prop := strip s = s.

(** No two whitespace characters next to each other. *)
Fixpoint single_spaced (s : str) : bool :=
  match s with
  | a :: t =>
      match t with
      | b :: _ => negb (is_space a && is_space b) && single_spaced t
      | [] => true
      end
  | [] => true
  end.

(** A worklog submission whose [timeSpent] reads [<n>m] for a positive
    multiple [n] of 5. *)
Definition five_minute_submission (c : tracker_call) : Prop :=
  match c with
  | AddWorklog _ timeSpent _ =>
      exists n, 0 < n /\ n mod 5 = 0 /\ timeSpent = format_int n ++ lit "m"
  | _ => False
  end.

(** ** Fixtures for the examples *)

(** A tracker that accepts every call and lists no issue, an empty keyring
    and an empty environment. *)
Definition ext_ok : externals :=
  mkExternals (fun _ => true) (fun _ => []) (fun _ _ => None) (fun _ => None) [].

(** The same with a server, a user and a password configured. *)
Definition ext_configured : externals :=
  mkExternals (fun _ => true) (fun _ => [])
    (fun _ _ => Some (lit "secret"))
    (fun v => if str_eqb v (lit "JIRA_SERVER") then Some (lit "https://jira")
              else if str_eqb v (lit "JIRA_USER") then Some (lit "me")
              else None)
    [].

(** One line on standard input, nothing printed, no call made. *)
Definition world_with (line : str) : world := mkWorld [line] [] [].


(** ** Command registration

    The decorators [arg] and [command] run when the module is loaded.  [arg]
    records on the function what to pass to [add_argument]; [command] adds
    the two options every command has, creates the sub-parser and declares
    the recorded arguments on it. *)

(** Values given as keyword arguments: [None], a string, a list of strings,
    or the built-in [str] (as in [type=str]). *)
Inductive kwval :=
| KNone
| KStr (s : str)
| KList (l : list str)
| KType_str.

(** A keyword dictionary, in insertion order. *)
Definition kwargs := list (str * kwval).

Fixpoint kw_get (k : str) (kw : kwargs) : option kwval :=
  match kw with
  | [] => None
  | (k', v) :: t => if str_eqb k' k then Some v else kw_get k t
  end.

(** [k in kw] *)
Definition kw_in (k : str) (kw : kwargs) : bool :=
  match kw_get k kw with Some _ => true | None => false end.

(** [kw[k] = v] *)
Fixpoint kw_set (k : str) (v : kwval) (kw : kwargs) : kwargs :=
  match kw with
  | [] => [(k, v)]
  | (k', v') :: t =>
      if str_eqb k' k then (k', v) :: t else (k', v') :: kw_set k v t
  end.

(** One entry of [func.__args__]: [{'args': args, 'kw': kw}]. *)
Record arg_decl := mkArgDecl {
  ad_args : list str;
  ad_kw : kwargs }.

(** A command function as the decorators see it: [__name__], [__doc__]
    ([None] without a docstring) and the [__args__] attribute ([None] while
    it is not set). *)
Record pyfunc := mkFunc {
  f_name : str;
  f_doc : option str;
  f_args : option (list arg_decl) }.

(** [getattr(func, '__args__', [])] *)
Definition getattr_args (func : pyfunc) : list arg_decl :=
  match f_args func with
  | Some l => l
  | None => []
  end.

(** [[
def arg( *args, **kw):
    def decorator(func):
        if not hasattr(func, '__args__'):
            func.__args__ = []
        func.__args__.append({'args': args, 'kw': kw})
        return func
    return decorator
]] *)
Definition arg (d : arg_decl) (func : pyfunc) : pyfunc :=
  mkFunc (f_name func) (f_doc func) (Some (getattr_args func ++ [d])).

(** [default or fallback]: the fallback stands in for [None] and for the
    empty string. *)
Definition str_or (default : option str) (fallback : str) : str :=
  match default with
  | Some (c :: s) => c :: s
  | _ => fallback
  end.

Definition kw_of_option (v : option str) : kwval :=
  match v with
  | Some s => KStr s
  | None => KNone
  end.

(** What [server_arg()] and [user_arg()] record for the options
    [--jira-server] and [--jira-user]; [default] is the value of the
    environment variable read by [os.getenv]. *)
Definition server_arg_decl (default : option str) : arg_decl :=
  let def_help := str_or default (lit "JIRA_SERVER environment variable") in
  mkArgDecl [lit "--jira-server"; lit "-j"]
            [(lit "default", kw_of_option default);
             (lit "type", KType_str);
             (lit "help", KStr (lit "Jira server (default: " ++ def_help ++ lit ")"))].

Definition user_arg_decl (default : option str) : arg_decl :=
  let def_help := str_or default (lit "JIRA_USER environment variable") in
  mkArgDecl [lit "--jira-user"; lit "-u"]
            [(lit "default", kw_of_option default);
             (lit "type", KType_str);
             (lit "help", KStr (lit "Jira user (default: " ++ def_help ++ lit ")"))].

(** [s.split('\n')[0]] *)
Fixpoint first_line (s : str) : str :=
  match s with
  | [] => []
  | c :: t => if Ascii.eqb c "010" then [] else c :: first_line t
  end.

(** What [command] hands to [argparse]: the arguments of [add_parser], the
    arguments declared with [add_argument], in that order, and the function
    set with [set_defaults]. *)
Record subparser := mkSubparser {
  sp_args : list str;
  sp_kw : kwargs;
  sp_arguments : list arg_decl;
  sp_func : pyfunc }.

(** [[
def command( *args, **kw):
    def decorator(func):
        func = server_arg()(func)
        func = user_arg()(func)
        if not args:
            args = [func.__name__]
        if 'help' not in kw:
            kw['help'] = func.__doc__.split('\n')[0]
        cmd = subparsers.add_parser( *args, **kw)
        for arg in reversed(getattr(func, '__args__', [])):
            cmd.add_argument( *arg['args'], **arg['kw'])
        cmd.set_defaults(func=func)
        return func
    return decorator
]]
    The result is [None] when [func.__doc__] is [None] and no help was given:
    the [split] then raises before a sub-parser is created. *)
Definition command_decorator (ext : externals) (args : list str) (kw : kwargs)
           (func : pyfunc) : option (pyfunc * subparser) :=
  let func := arg (server_arg_decl (server_arg ext)) func in
  let func := arg (user_arg_decl (user_arg ext)) func in
  let args := match args with [] => [f_name func] | _ => args end in
  let kw' :=
    if kw_in (lit "help") kw then Some kw
    else match f_doc func with
         | Some doc => Some (kw_set (lit "help") (KStr (first_line doc)) kw)
         | None => None
         end in
  match kw' with
  | Some kw =>
      Some (func, mkSubparser args kw (rev (getattr_args func)) func)
  | None => None
  end.

(** The functions [log], [vimlog] and [issues] before decoration, and the
    decorators written above each, from top to bottom. *)
Definition log_func : pyfunc := mkFunc (lit "log") (Some (lit "Log time")) None.

Definition log_arg_decls : list arg_decl :=
  [mkArgDecl [lit "issue"] [(lit "help", KStr (lit "Issue id"))];
   mkArgDecl [lit "amount"] [(lit "help", KStr (lit "Amount of time to log"))];
   mkArgDecl [lit "comment"] [(lit "help", KStr (lit "Comment"))]].

(** Decorators written one above the other apply from the bottom up. *)
Definition decorate (decls : list arg_decl) (func : pyfunc) : pyfunc :=
  fold_right arg func decls.

(** * Properties *)

(** ** The matcher agrees with the meaning of the pattern *)

Lemma consumed_app (s1 s2 : str) : consumed (s1 ++ s2) s2 = s1.
Proof.
  unfold consumed. rewrite length_app.
  replace (List.length s1 + List.length s2 - List.length s2)%nat
    with (List.length s1) by lia.
  rewrite firstn_app, firstn_all, Nat.sub_diag. simpl. apply app_nil_r.
Qed.

Section MatcherFacts.
Variable A : Type.

Lemma star_cls_sound p (k : str -> option A) s a :
  star_cls p s k = Some a ->
  exists s1 s2, s = s1 ++ s2 /\ forallb p s1 = true /\ k s2 = Some a.
Proof.
  induction s as [|c s IH]; simpl; intros H.
  - exists [], []. auto.
  - destruct (p c) eqn:Hc.
    + destruct (star_cls p s k) as [a'|] eqn:Hs.
      * injection H as ->. destruct (IH eq_refl) as (s1 & s2 & -> & Hall & Hk).
        exists (c :: s1), s2. simpl. rewrite Hc, Hall. auto.
      * exists [], (c :: s). auto.
    + exists [], (c :: s). auto.
Qed.

Lemma plus_cls_sound p (k : str -> option A) s a :
  plus_cls p s k = Some a ->
  exists s1 s2, s = s1 ++ s2 /\ s1 <> [] /\ forallb p s1 = true /\ k s2 = Some a.
Proof.
  destruct s as [|c s]; simpl; [discriminate|].
  destruct (p c) eqn:Hc; [|discriminate]. intros H.
  destruct (star_cls_sound _ _ _ H) as (s1 & s2 & -> & Hall & Hk).
  exists (c :: s1), s2. simpl. rewrite Hc, Hall. repeat split; auto. discriminate.
Qed.

Lemma rmatch_sound r : forall s g (k : str -> groups -> option A) a,
  rmatch r s g k = Some a ->
  exists s1 s2 g', s = s1 ++ s2 /\ matches r s1 g g' /\ k s2 g' = Some a.
Proof.
  induction r as [c|p|p|p|r1 IH1 r2 IH2|r IH|n r IH]; simpl; intros s g k a H.
  - destruct s as [|c' s]; [discriminate|].
    destruct (Ascii.eqb_spec c' c) as [->|]; [|discriminate].
    exists [c], s, g. repeat split; auto. constructor.
  - destruct s as [|c' s]; [discriminate|].
    destruct (p c') eqn:Hp; [|discriminate].
    exists [c'], s, g. repeat split; auto. now constructor.
  - destruct (star_cls_sound _ _ _ H) as (s1 & s2 & -> & Hall & Hk).
    exists s1, s2, g. repeat split; auto. now constructor.
  - destruct (plus_cls_sound _ _ _ H) as (s1 & s2 & -> & Hne & Hall & Hk).
    exists s1, s2, g. repeat split; auto. now constructor.
  - destruct (IH1 _ _ _ _ H) as (s1 & s2 & g1 & -> & M1 & H2).
    destruct (IH2 _ _ _ _ H2) as (s3 & s4 & g2 & -> & M2 & Hk).
    exists (s1 ++ s3), s4, g2. rewrite app_assoc. repeat split; auto.
    econstructor; eauto.
  - destruct (rmatch r s g k) as [a'|] eqn:Hr.
    + injection H as ->. destruct (IH _ _ _ _ Hr) as (s1 & s2 & g' & -> & M1 & Hk).
      exists s1, s2, g'. repeat split; auto. now constructor.
    + exists [], s, g. repeat split; auto. apply M_OptSkipped.
  - destruct (IH _ _ _ _ H) as (s1 & s2 & g' & -> & M1 & Hk).
    rewrite consumed_app in Hk.
    exists s1, s2, (set_group n s1 g'). repeat split; auto. now constructor.
Qed.

Lemma star_cls_zero p (k : str -> option A) s :
  k s <> None -> star_cls p s k <> None.
Proof.
  destruct s as [|c s]; simpl; auto.
  destruct (p c); auto. destruct (star_cls p s k); auto. discriminate.
Qed.

Lemma star_cls_complete p (k : str -> option A) s1 s2 :
  forallb p s1 = true -> k s2 <> None -> star_cls p (s1 ++ s2) k <> None.
Proof.
  induction s1 as [|c s1 IH]; simpl; intros Hall Hk.
  - now apply star_cls_zero.
  - apply andb_prop in Hall as [Hc Hall]. rewrite Hc.
    specialize (IH Hall Hk). destruct (star_cls p (s1 ++ s2) k); congruence.
Qed.

Lemma rmatch_complete r s1 g g' :
  matches r s1 g g' ->
  forall s2 (k : str -> groups -> option A),
    k s2 g' <> None -> rmatch r (s1 ++ s2) g k <> None.
Proof.
  induction 1 as [c g|p c g Hp|p s g Hall|p s g Hne Hall
                 |r1 r2 s1 s3 g g1 g2 _ IH1 _ IH2|r s g g' _ IH|r g
                 |n r s g g' _ IH]; simpl; intros s2 k Hk.
  - now rewrite Ascii.eqb_refl.
  - now rewrite Hp.
  - now apply star_cls_complete.
  - destruct s as [|c s]; [congruence|]. simpl in *.
    apply andb_prop in Hall as [Hc Hall]. rewrite Hc.
    now apply star_cls_complete.
  - rewrite <- app_assoc. apply IH1. now apply IH2.
  - specialize (IH s2 k Hk). destruct (rmatch r (s ++ s2) g k); congruence.
  - destruct (rmatch r s2 g k); congruence.
  - apply IH. now rewrite consumed_app.
Qed.

End MatcherFacts.

(** [re.match] finds a match exactly on the lines of the worklog shape. *)
Lemma re_match_worklog_shape line :
  worklog_shape line <-> re_match WORKLOG_RX line <> None.
Proof.
  unfold worklog_shape, re_match. split.
  - intros (s & rest & g & -> & Hm).
    apply rmatch_complete with (g' := g); [assumption|discriminate].
  - intros H. destruct (rmatch _ _ _ _) as [g|] eqn:E; [|congruence].
    apply rmatch_sound in E as (s1 & s2 & g' & -> & Hm & _). eauto.
Qed.

(** ** The pieces of a matched line *)

Ltac invert_matches :=
  repeat match goal with
         | H : matches (Seq _ _) _ _ _ |- _ => inversion H; subst; clear H
         | H : matches (Group _ _) _ _ _ |- _ => inversion H; subst; clear H
         | H : matches (Lit _) _ _ _ |- _ => inversion H; subst; clear H
         | H : matches (Cls _) _ _ _ |- _ => inversion H; subst; clear H
         | H : matches (Star _) _ _ _ |- _ => inversion H; subst; clear H
         | H : matches (Plus _) _ _ _ |- _ => inversion H; subst; clear H
         | H : matches (Opt _) _ _ _ |- _ => inversion H; subst; clear H
         end.

Lemma matches_worklog_parts s g rest :
  matches WORKLOG_RX s no_groups g -> worklog_parts (s ++ rest) g.
Proof.
  intros H. cbv [WORKLOG_RX seq] in H. invert_matches.
  - match goal with
    | |- worklog_parts
           ((_ ++ ?ws1 ++ _ ++ [?st] ++ _ ++ ?ws2 ++ ?pre ++ ?ws3 ++ ?cm ++ ?ws4
             ++ (_ ++ ?d) ++ ?ws5 ++ _ ++ _ ++ (?up ++ _ ++ ?dg) ++ ?ws6
             ++ _ ++ ?digs ++ ?tr ++ _) ++ _) _ =>
        exists ws1, st, ws2, pre, ws3, cm, ws4, (Some ("@"%char :: d)), ws5,
               up, dg, ws6, digs, tr, rest
    end.
    unfold run1. repeat rewrite <- app_assoc.
    repeat split; auto. right. eexists. repeat split; auto.
  - match goal with
    | |- worklog_parts
           ((_ ++ ?ws1 ++ _ ++ [?st] ++ _ ++ ?ws2 ++ ?pre ++ ?ws3 ++ ?cm ++ ?ws4
             ++ [] ++ ?ws5 ++ _ ++ _ ++ (?up ++ _ ++ ?dg) ++ ?ws6
             ++ _ ++ ?digs ++ ?tr ++ _) ++ _) _ =>
        exists ws1, st, ws2, pre, ws3, cm, ws4, None, ws5,
               up, dg, ws6, digs, tr, rest
    end.
    unfold run1. repeat rewrite <- app_assoc.
    repeat split; auto.
Qed.

(** A successful [re.match] cuts the line into all the pieces of the
    pattern. *)
Lemma re_match_parts line g :
  re_match WORKLOG_RX line = Some g -> worklog_parts line g.
Proof.
  unfold re_match. intros H.
  apply rmatch_sound in H as (s1 & s2 & g' & -> & Hm & Hk).
  injection Hk as <-. now apply matches_worklog_parts.
Qed.

(** Two texts that start with a run of one class followed by a character
    outside it have the same run. *)
Lemma run_unique (p : ascii -> bool) l1 l2 a b r1 r2 :
  forallb p l1 = true -> forallb p l2 = true ->
  p a = false -> p b = false ->
  l1 ++ a :: r1 = l2 ++ b :: r2 -> l1 = l2 /\ a = b /\ r1 = r2.
Proof.
  revert l2. induction l1 as [|x l1 IH]; intros [|y l2]; simpl; intros H1 H2 Ha Hb E.
  - injection E as -> ->. auto.
  - injection E as -> _. apply andb_prop in H2 as [H2 _]. congruence.
  - injection E as -> _. apply andb_prop in H1 as [H1 _]. congruence.
  - injection E as -> E. apply andb_prop in H1 as [_ H1].
    apply andb_prop in H2 as [_ H2].
    destruct (IH _ H1 H2 Ha Hb E) as (-> & -> & ->). auto.
Qed.

(** The start of a matched line: dash, whitespace, bracketed state. *)
Lemma re_match_head line g :
  re_match WORKLOG_RX line = Some g ->
  exists ws st tail,
    line = "-"%char :: ws ++ "["%char :: st :: "]"%char :: tail
    /\ run1 is_space ws /\ is_state st = true /\ g_state g = Some [st].
Proof.
  intros H. apply re_match_parts in H.
  destruct H as (ws1 & st & ws2 & prefix & ws3 & comment & ws4 & time & ws5
                 & up & dg & ws6 & digs & tracking & rest & -> & Hws1 & Hst & H).
  do 12 destruct H as [_ H]. subst g.
  exists ws1, st. eexists. repeat split; try apply Hws1; auto.
Qed.

(** ** The Duration Accumulator *)

Lemma accumulate_step_weight m c : accumulate_step m c = m + spec_weight c.
Proof.
  unfold accumulate_step, spec_weight.
  destruct (Ascii.eqb_spec c ".") as [->|_]; [reflexivity|].
  destruct (Ascii.eqb_spec c ";") as [->|_]; [reflexivity|].
  destruct (Ascii.eqb c ","); lia.
Qed.

Lemma fold_accumulate tracking : forall m,
  fold_left accumulate_step tracking m = m + spec_weight_sum tracking.
Proof.
  induction tracking as [|c t IH]; simpl; intros m; [lia|].
  rewrite IH, accumulate_step_weight. lia.
Qed.

Lemma accumulate_weight_sum tracking : accumulate tracking = spec_weight_sum tracking.
Proof. unfold accumulate. now rewrite fold_accumulate. Qed.

Lemma spec_weight_multiple c : exists q, 0 <= q /\ spec_weight c = 5 * q.
Proof.
  unfold spec_weight.
  destruct (Ascii.eqb c "."); [exists 6; lia|].
  destruct (Ascii.eqb c ";"); [exists 3; lia|].
  destruct (Ascii.eqb c ","); [exists 1; lia|exists 0; lia].
Qed.

Lemma accumulate_multiple tracking :
  exists q, 0 <= q /\ accumulate tracking = 5 * q.
Proof.
  rewrite accumulate_weight_sum.
  induction tracking as [|c t [q [Hq IH]]]; cbn [spec_weight_sum].
  - exists 0. lia.
  - destruct (spec_weight_multiple c) as [q' [Hq' ->]]. rewrite IH.
    exists (q' + q). lia.
Qed.

Lemma spec_weight_sum_perm t t' :
  Permutation t t' -> spec_weight_sum t = spec_weight_sum t'.
Proof. induction 1; simpl; lia. Qed.

(** C1. For every tracking string the accumulator returns the sum of the
    per-character weights (30 for a dot, 15 for a semicolon, 5 for a comma, 0
    for anything else); the result does not depend on the order of the
    characters, the empty string gives 0, and the five sample values of the
    specification come out as stated. *)
Theorem C1_accumulate_is_weight_sum : forall tracking : str,
  accumulate tracking = spec_weight_sum tracking
  /\ (forall c, spec_weight c =
                if Ascii.eqb c "." then 30
                else if Ascii.eqb c ";" then 15
                else if Ascii.eqb c "," then 5 else 0)
  /\ (forall tracking', Permutation tracking tracking' ->
                        accumulate tracking' = accumulate tracking)
  /\ accumulate (lit "") = 0
  /\ accumulate (lit ".") = 30
  /\ accumulate (lit ";;") = 30
  /\ accumulate (lit ",,,") = 15
  /\ accumulate (lit ". ;,") = 50.
Proof.
  intros tracking. split; [apply accumulate_weight_sum|].
  split; [reflexivity|].
  split; [|repeat split; reflexivity].
  intros t' Hp. rewrite !accumulate_weight_sum.
  symmetry. now apply spec_weight_sum_perm.
Qed.

Lemma C1_accumulate_witness :
  accumulate (lit ".;") = spec_weight_sum (lit ".;")
  /\ accumulate (lit ";.") = accumulate (lit ".;").
Proof.
  destruct (C1_accumulate_is_weight_sum (lit ".;")) as (Hsum & _ & Hperm & _).
  split; [exact Hsum|].
  apply Hperm. vm_compute. apply perm_swap.
Defined.

(** ** The [vimlog] policy *)

(** What [match.group('state') == 'x'] evaluates to. *)
Lemma state_test_true (m : groups) :
  g_state m = Some (lit "x") ->
  match group Gstate m with Some s => str_eqb s (lit "x") | None => false end = true.
Proof. cbn [group]. intros ->. reflexivity. Qed.

Lemma state_test_false (m : groups) :
  g_state m <> Some (lit "x") ->
  match group Gstate m with Some s => str_eqb s (lit "x") | None => false end = false.
Proof.
  cbn [group]. intros H. destruct (g_state m) as [s|]; [|reflexivity].
  unfold str_eqb. destruct (list_eq_dec ascii_dec s (lit "x")); congruence.
Qed.

(** [vimlog] run on a world whose next input line is [line], branch by
    branch. *)
Lemma vimlog_no_match ext line rest out cs :
  re_match WORKLOG_RX line = None ->
  vimlog ext (mkWorld (line :: rest) out cs)
  = (Ok tt, mkWorld rest (out ++ [line ++ lit "?"]) cs).
Proof. intros H. unfold vimlog, bind, input. cbn [stdin]. now rewrite H. Qed.

Lemma vimlog_done ext line m rest out cs :
  re_match WORKLOG_RX line = Some m -> g_state m = Some (lit "x") ->
  vimlog ext (mkWorld (line :: rest) out cs)
  = (Ok tt, mkWorld rest (out ++ [line ++ lit "!"]) cs).
Proof.
  intros H Hx. unfold vimlog, bind, input. cbn [stdin].
  now rewrite H, (state_test_true _ Hx).
Qed.

Lemma vimlog_nothing_to_log ext line m tracking rest out cs :
  re_match WORKLOG_RX line = Some m -> g_state m <> Some (lit "x") ->
  g_tracking m = Some tracking -> accumulate tracking <= 0 ->
  vimlog ext (mkWorld (line :: rest) out cs)
  = (Ok tt, mkWorld rest (out ++ [line]) cs).
Proof.
  intros H Hx Ht Hz. unfold vimlog, bind, input. cbn [stdin].
  rewrite H, (state_test_false _ Hx). cbn [group]. rewrite Ht.
  destruct (Z.gtb_spec (accumulate tracking) 0); [lia|reflexivity].
Qed.

Lemma vimlog_submit ext line m tracking rest out cs :
  re_match WORKLOG_RX line = Some m -> g_state m <> Some (lit "x") ->
  g_tracking m = Some tracking -> 0 < accumulate tracking ->
  vimlog ext (mkWorld (line :: rest) out cs)
  = let call := AddWorklog (g_issue m)
                           (format_int (accumulate tracking) ++ lit "m")
                           (g_comment m) in
    if tracker_accepts ext call
    then (Ok tt, mkWorld rest (out ++ [lit "- [x]" ++ skipn 5 line]) (cs ++ [call]))
    else (Raise JIRAError, mkWorld rest out (cs ++ [call])).
Proof.
  intros H Hx Ht Hz. unfold vimlog, bind, input. cbn [stdin].
  rewrite H, (state_test_false _ Hx). cbn [group]. rewrite Ht.
  destruct (Z.gtb_spec (accumulate tracking) 0); [|lia].
  unfold call_tracker. cbn [stdin stdout calls].
  destruct (tracker_accepts ext _); reflexivity.
Qed.

(** A successful match sets the [tracking] group, so the loop over it never
    meets [None]. *)
Lemma re_match_tracking line m :
  re_match WORKLOG_RX line = Some m -> exists t, g_tracking m = Some t.
Proof.
  intros H. apply re_match_parts in H.
  destruct H as (ws1 & st & ws2 & prefix & ws3 & comment & ws4 & time & ws5
                 & up & dg & ws6 & digs & tracking & rest & _ & H).
  do 14 destruct H as [_ H]. subst m. simpl. eauto.
Qed.

(** C4. A line that does not have the worklog shape is reported as no match;
    [vimlog] then prints the line with a question mark appended, calls the
    tracker not at all, raises nothing, and the process status stays 0. *)
Theorem C4_unmatched_line_is_echoed_with_question_mark :
  forall ext line rest out cs,
    ~ worklog_shape line ->
    re_match WORKLOG_RX line = None
    /\ vimlog ext (mkWorld (line :: rest) out cs)
       = (Ok tt, mkWorld rest (out ++ [line ++ lit "?"]) cs)
    /\ exit_status (fst (vimlog ext (mkWorld (line :: rest) out cs))) = 0.
Proof.
  intros ext line rest out cs Hshape.
  assert (Hnone : re_match WORKLOG_RX line = None).
  { destruct (re_match WORKLOG_RX line) eqn:E; [|reflexivity].
    exfalso. apply Hshape. apply re_match_worklog_shape. congruence. }
  rewrite (vimlog_no_match ext _ _ _ _ Hnone). auto.
Qed.

Lemma C4_unmatched_witness :
  let line := lit "not a worklog line at all" in
  ~ worklog_shape line
  /\ vimlog ext_ok (world_with line)
     = (Ok tt, mkWorld [] [lit "not a worklog line at all?"] []).
Proof.
  assert (H : ~ worklog_shape (lit "not a worklog line at all")).
  { intros H. apply re_match_worklog_shape in H. now apply H. }
  split; [exact H|].
  apply (C4_unmatched_line_is_echoed_with_question_mark ext_ok [] [] [] H).
Defined.

(** C5. On a matching line whose state marker is [x], [vimlog] prints the
    line with an exclamation mark appended and submits nothing, whatever the
    tracking field holds. *)
Theorem C5_complete_line_is_echoed_with_bang :
  forall ext line m rest out cs,
    re_match WORKLOG_RX line = Some m ->
    g_state m = Some (lit "x") ->
    vimlog ext (mkWorld (line :: rest) out cs)
    = (Ok tt, mkWorld rest (out ++ [line ++ lit "!"]) cs).
Proof. intros. eapply vimlog_done; eauto. Qed.

Lemma C5_complete_witness :
  vimlog ext_ok (world_with (lit "- [x] done already - PROJ-2 [.]"))
  = (Ok tt, mkWorld [] [lit "- [x] done already - PROJ-2 [.]!"] []).
Proof.
  apply C5_complete_line_is_echoed_with_bang
    with (m := mkGroups (Some (lit "x")) (Some []) (Some (lit "done already"))
                        None (Some (lit "PROJ-2")) (Some (lit ".")));
    reflexivity.
Defined.

(** C6. On a matching line whose state marker is not [x] and whose tracking
    marks add up to 0 minutes, [vimlog] prints the line unchanged and submits
    nothing. *)
Theorem C6_zero_minutes_line_is_left_alone :
  forall ext line m tracking rest out cs,
    re_match WORKLOG_RX line = Some m ->
    g_state m <> Some (lit "x") ->
    g_tracking m = Some tracking ->
    accumulate tracking = 0 ->
    vimlog ext (mkWorld (line :: rest) out cs)
    = (Ok tt, mkWorld rest (out ++ [line]) cs).
Proof. intros. eapply vimlog_nothing_to_log; eauto. lia. Qed.

Lemma C6_zero_minutes_witness :
  vimlog ext_ok (world_with (lit "- [.] write report - PROJ-3 [12 ]"))
  = (Ok tt, mkWorld [] [lit "- [.] write report - PROJ-3 [12 ]"] []).
Proof.
  apply C6_zero_minutes_line_is_left_alone
    with (m := mkGroups (Some (lit ".")) (Some []) (Some (lit "write report"))
                        None (Some (lit "PROJ-3")) (Some (lit " ")))
         (tracking := lit " "); try reflexivity.
  discriminate.
Defined.

Lemma state_is_x_dec (m : groups) :
  {g_state m = Some (lit "x")} + {g_state m <> Some (lit "x")}.
Proof.
  destruct (g_state m) as [s|]; [|right; discriminate].
  destruct (list_eq_dec ascii_dec s (lit "x")) as [->|Hne]; [now left|].
  right. congruence.
Qed.

(** C9. The accumulated minutes are a non-negative multiple of 5; hence every
    call [vimlog] makes to the tracker is a worklog submission whose
    [timeSpent] reads [<n>m] with [n] positive and divisible by 5. *)
Theorem C9_minutes_are_multiples_of_five : forall (tracking : str) ext w,
  (0 <= accumulate tracking /\ accumulate tracking mod 5 = 0)
  /\ exists new,
       calls (snd (vimlog ext w)) = calls w ++ new
       /\ Forall five_minute_submission new.
Proof.
  intros tracking ext w. split.
  { destruct (accumulate_multiple tracking) as (q & Hq & ->). split; [lia|].
    rewrite Z.mul_comm. apply Z.mod_mul. lia. }
  destruct w as [[|line rest] out cs].
  { exists []. split; [|constructor]. cbn. now rewrite app_nil_r. }
  destruct (re_match WORKLOG_RX line) as [m|] eqn:Hm.
  2:{ rewrite (vimlog_no_match ext _ _ _ _ Hm). exists []. split; [|constructor].
      cbn. now rewrite app_nil_r. }
  destruct (state_is_x_dec m) as [Hx|Hx].
  { rewrite (vimlog_done ext _ _ _ _ Hm Hx). exists []. split; [|constructor].
    cbn. now rewrite app_nil_r. }
  destruct (re_match_tracking _ Hm) as [t Ht].
  destruct (Z_lt_le_dec 0 (accumulate t)) as [Hpos|Hzero].
  - rewrite (vimlog_submit ext _ _ _ _ Hm Hx Ht Hpos). cbv zeta.
    eexists [_]. split.
    + destruct (tracker_accepts ext _); reflexivity.
    + constructor; [|constructor]. exists (accumulate t).
      repeat split; auto.
      destruct (accumulate_multiple t) as (q & Hq & ->).
      rewrite Z.mul_comm. apply Z.mod_mul. lia.
  - rewrite (vimlog_nothing_to_log ext _ _ _ _ Hm Hx Ht Hzero).
    exists []. split; [|constructor]. cbn. now rewrite app_nil_r.
Qed.

(** ** The rewrite of the printed line *)

Lemma mark_after_bracket_run ws st tail :
  forallb is_space ws = true ->
  mark_after_bracket (ws ++ "["%char :: st :: tail)
  = ws ++ "["%char :: "x"%char :: tail.
Proof.
  induction ws as [|w ws IH]; simpl; intros H; [reflexivity|].
  apply andb_prop in H as [Hw H]. rewrite Hw. now rewrite IH.
Qed.

Lemma mark_complete_head ws st tail :
  forallb is_space ws = true ->
  mark_complete ("-"%char :: ws ++ "["%char :: st :: tail)
  = "-"%char :: ws ++ "["%char :: "x"%char :: tail.
Proof. intros H. simpl. now rewrite mark_after_bracket_run. Qed.

(** On a line that starts as the pattern demands, cutting five characters
    and gluing the ticked box in front is the state-marker rewrite exactly
    when the whitespace run is one space. *)
Lemma positional_rewrite_iff ws st tail :
  run1 is_space ws ->
  let line := "-"%char :: ws ++ "["%char :: st :: "]"%char :: tail in
  lit "- [x]" ++ skipn 5 line = mark_complete line
  <-> exists c, firstn 5 line = lit "- [" ++ [c] ++ lit "]".
Proof.
  intros [Hne Hall] line. subst line. rewrite (mark_complete_head _ _ _ Hall).
  destruct ws as [|w [|w2 ws]]; [congruence| |].
  - cbn. split.
    + intros H. injection H as <-. now exists st.
    + intros [c H]. injection H as <- _. reflexivity.
  - cbn in Hall. apply andb_prop in Hall as [_ Hall].
    apply andb_prop in Hall as [Hw2 _].
    cbn. split.
    + intros H. injection H as _ E _. now rewrite <- E in Hw2.
    + intros [c H]. injection H as _ E _. now rewrite E in Hw2.
Qed.

(** C10. When the submission succeeds, [vimlog] prints the ticked box
    followed by the input line from index 5 on, whatever the first five
    characters were; this is the state-marker rewrite only when the line
    begins with the five characters dash, space, bracket, state, bracket. *)
Theorem C10_printed_line_is_positional :
  forall ext line m tracking rest out cs,
    re_match WORKLOG_RX line = Some m ->
    g_state m <> Some (lit "x") ->
    g_tracking m = Some tracking ->
    0 < accumulate tracking ->
    tracker_accepts ext (AddWorklog (g_issue m)
                           (format_int (accumulate tracking) ++ lit "m")
                           (g_comment m)) = true ->
    let printed := lit "- [x]" ++ skipn 5 line in
    stdout (snd (vimlog ext (mkWorld (line :: rest) out cs))) = out ++ [printed]
    /\ (printed = mark_complete line
        <-> exists c, firstn 5 line = lit "- [" ++ [c] ++ lit "]").
Proof.
  intros ext line m tracking rest out cs Hm Hx Ht Hpos Hacc printed.
  split.
  - rewrite (vimlog_submit ext _ _ _ _ Hm Hx Ht Hpos). cbv zeta.
    now rewrite Hacc.
  - destruct (re_match_head _ Hm) as (ws & st & tail & -> & Hws & _).
    now apply positional_rewrite_iff.
Qed.

Lemma C10_positional_witness :
  let line := lit "-  [.] fix bug - PROJ-1 [;]" in
  stdout (snd (vimlog ext_ok (world_with line)))
  = [lit "- [x]] fix bug - PROJ-1 [;]"]
  /\ (lit "- [x]] fix bug - PROJ-1 [;]" = mark_complete line
      <-> exists c, firstn 5 line = lit "- [" ++ [c] ++ lit "]").
Proof.
  apply (@C10_printed_line_is_positional ext_ok
           (lit "-  [.] fix bug - PROJ-1 [;]")
           (mkGroups (Some (lit ".")) (Some []) (Some (lit "fix bug"))
                     None (Some (lit "PROJ-1")) (Some (lit ";")))
           (lit ";") [] [] []); try reflexivity.
  discriminate.
Defined.

(** C2 (the code departs from the claim).  The line below matches, is not
    complete and carries 30 minutes: the submission is the one the claim
    describes, but the printed line is not the input with its state marker
    ticked, because the rewrite cuts at index 5 while the pattern lets any
    run of whitespace follow the dash. *)
Theorem C2_rewrite_garbles_a_wide_gap :
  let line := lit "-  [ ] fix bug - PROJ-1 [.]" in
  vimlog ext_ok (world_with line)
  = (Ok tt, mkWorld [] [lit "- [x]] fix bug - PROJ-1 [.]"]
                    [AddWorklog (Some (lit "PROJ-1")) (lit "30m")
                                (Some (lit "fix bug"))])
  /\ mark_complete line = lit "-  [x] fix bug - PROJ-1 [.]"
  /\ lit "- [x]] fix bug - PROJ-1 [.]" <> mark_complete line.
Proof. repeat split. discriminate. Qed.

(** ** The comment group *)

Lemma single_spaced_app_r x y :
  single_spaced (x ++ y) = true -> single_spaced y = true.
Proof.
  induction x as [|a x IH]; [auto|]. cbn [app single_spaced].
  destruct (x ++ y) as [|b t] eqn:E.
  - intros _. apply app_eq_nil in E as [_ ->]. reflexivity.
  - intros H. apply andb_prop in H as [_ H]. auto.
Qed.

Lemma single_spaced_pair a b t :
  single_spaced (a :: b :: t) = true -> is_space a = true -> is_space b = false.
Proof.
  cbn [single_spaced]. intros H Ha. apply andb_prop in H as [H _].
  rewrite Ha in H. now destruct (is_space b).
Qed.

Lemma run_last (p : ascii -> bool) s :
  run1 p s -> exists s' l, s = s' ++ [l] /\ p l = true.
Proof.
  intros [Hne Hall]. destruct (exists_last Hne) as (s' & l & ->).
  exists s', l. split; [reflexivity|].
  rewrite forallb_app in Hall. apply andb_prop in Hall as [_ Hl].
  cbn in Hl. now rewrite andb_true_r in Hl.
Qed.

Lemma trimmed_ends h t s' l :
  h :: t = s' ++ [l] -> is_space h = false -> is_space l = false ->
  trimmed (h :: t).
Proof.
  intros E Hh Hl. unfold trimmed, strip.
  assert (L : lstrip (h :: t) = h :: t) by (cbn; now rewrite Hh).
  rewrite L, E, rev_app_distr. cbn [rev app lstrip]. rewrite Hl.
  change (l :: rev s') with ([l] ++ rev s').
  now rewrite rev_app_distr, rev_involutive.
Qed.

(** On a line without doubled whitespace the comment starts and ends with a
    character that is not whitespace. *)
Lemma comment_trimmed_when_single_spaced line g :
  worklog_parts line g -> single_spaced line = true ->
  exists c, g_comment g = Some c /\ trimmed c.
Proof.
  intros (ws1 & st & ws2 & prefix & ws3 & comment & ws4 & time & ws5
          & up & dg & ws6 & digs & tracking & rest & -> & _ & _ & _ & _
          & Hws3 & [Hne Hc] & Hws4 & H) Hs.
  do 7 destruct H as [_ H]. subst g. exists comment. split; [reflexivity|].
  do 7 apply single_spaced_app_r in Hs.
  destruct (run_last Hws3) as (ws3' & a & -> & Ha).
  rewrite <- app_assoc in Hs. apply single_spaced_app_r in Hs.
  destruct comment as [|h t]; [congruence|].
  assert (Hh : is_space h = false)
    by (cbn [app] in Hs; eapply single_spaced_pair; eauto).
  destruct (@exists_last _ (h :: t)) as (c' & l & E); [discriminate|].
  apply single_spaced_app_r in Hs.
  rewrite E, <- app_assoc in Hs. apply single_spaced_app_r in Hs.
  destruct Hws4 as [Hne4 Hall4]. destruct ws4 as [|b ws4]; [congruence|].
  cbn in Hall4. apply andb_prop in Hall4 as [Hb _].
  assert (Hl : is_space l = false).
  { destruct (is_space l) eqn:El; [|reflexivity].
    cbn in Hs. rewrite El, Hb in Hs. discriminate. }
  eapply trimmed_ends; eauto.
Qed.

(** C3 (as the code has it).  The comment of a parsed line is the text the
    comment group matched: non-empty, made of comment characters, followed by
    whitespace in the line, and handed to the tracker as it is.  It is
    whitespace-trimmed when the line has no two whitespace characters in a
    row.  On the sample line of the specification the submission is issue
    PROJ-1, timeSpent 90m, comment "fix bug", and the line is printed
    ticked. *)
Theorem C3_comment_is_the_matched_text : forall line g,
  re_match WORKLOG_RX line = Some g ->
  (exists before c w after,
      line = before ++ c ++ w :: after
      /\ g_comment g = Some c /\ run1 is_comment c /\ is_space w = true)
  /\ (forall ext tracking rest out cs,
        g_state g <> Some (lit "x") -> g_tracking g = Some tracking ->
        0 < accumulate tracking ->
        calls (snd (vimlog ext (mkWorld (line :: rest) out cs)))
        = cs ++ [AddWorklog (g_issue g)
                            (format_int (accumulate tracking) ++ lit "m")
                            (g_comment g)])
  /\ (single_spaced line = true -> exists c, g_comment g = Some c /\ trimmed c)
  /\ vimlog ext_ok (world_with (lit "- [ ] fix bug - PROJ-1 [...]"))
     = (Ok tt, mkWorld [] [lit "- [x] fix bug - PROJ-1 [...]"]
                       [AddWorklog (Some (lit "PROJ-1")) (lit "90m")
                                   (Some (lit "fix bug"))]).
Proof.
  intros line g Hm. split; [|split; [|split; [|reflexivity]]].
  - apply re_match_parts in Hm.
    destruct Hm as (ws1 & st & ws2 & prefix & ws3 & comment & ws4 & time & ws5
                    & up & dg & ws6 & digs & tracking & rest & -> & _ & _ & _
                    & _ & _ & Hc & [Hne4 Hall4] & H).
    do 7 destruct H as [_ H]. subst g.
    destruct ws4 as [|w ws4]; [congruence|].
    cbn in Hall4. apply andb_prop in Hall4 as [Hw _].
    exists (lit "-" ++ ws1 ++ lit "[" ++ [st] ++ lit "]" ++ ws2 ++ prefix ++ ws3),
           comment, w.
    eexists. split; [|repeat split; auto; apply Hc].
    repeat rewrite <- app_assoc. reflexivity.
  - intros ext tracking rest out cs Hx Ht Hpos.
    rewrite (vimlog_submit ext _ _ _ _ Hm Hx Ht Hpos). cbv zeta.
    destruct (tracker_accepts ext _); reflexivity.
  - apply comment_trimmed_when_single_spaced. now apply re_match_parts.
Qed.

Lemma C3_comment_witness :
  let line := lit "- [ ] fix bug - PROJ-1 [...]" in
  let g := mkGroups (Some (lit " ")) (Some []) (Some (lit "fix bug"))
                    None (Some (lit "PROJ-1")) (Some (lit "...")) in
  re_match WORKLOG_RX line = Some g
  /\ single_spaced line = true
  /\ exists c, g_comment g = Some c /\ trimmed c.
Proof.
  split; [reflexivity|]. split; [reflexivity|].
  destruct (@C3_comment_is_the_matched_text
              (lit "- [ ] fix bug - PROJ-1 [...]")
              (mkGroups (Some (lit " ")) (Some []) (Some (lit "fix bug"))
                        None (Some (lit "PROJ-1")) (Some (lit "..."))))
    as (_ & _ & Htrim & _); [reflexivity|].
  apply Htrim. reflexivity.
Defined.

(** C3, the claim as written fails: this line matches, and the comment
    extracted from it and submitted to the tracker ends with a space. *)
Lemma C3_comment_not_trimmed :
  let line := lit "- [ ] a  - A-1 [.]" in
  exists g,
    re_match WORKLOG_RX line = Some g
    /\ g_comment g = Some (lit "a ")
    /\ ~ trimmed (lit "a ")
    /\ calls (snd (vimlog ext_ok (world_with line)))
       = [AddWorklog (Some (lit "A-1")) (lit "30m") (Some (lit "a "))].
Proof.
  eexists. split; [reflexivity|]. repeat split. discriminate.
Qed.

(** ** The state field *)

Lemma is_state_spec c :
  is_state c = true <-> (c = "." \/ c = " " \/ c = "x")%char.
Proof.
  unfold is_state, one_of. cbn [existsb]. rewrite !orb_true_iff.
  rewrite !Ascii.eqb_eq. intuition discriminate.
Qed.

(** C7. A match sets the state group to one of the three characters dot,
    space, x, and comes with the whole line cut into the pieces of the
    pattern, every mandatory group set; a line whose character in the state
    position (after the dash, the whitespace and the opening bracket) is any
    other one is no match; and matching either fails or yields all of that,
    never a part. *)
Theorem C7_state_field_and_all_or_nothing : forall line,
  (forall g, re_match WORKLOG_RX line = Some g ->
     (exists st, g_state g = Some [st]
                 /\ (st = "." \/ st = " " \/ st = "x")%char)
     /\ worklog_parts line g)
  /\ (forall ws c tail,
        line = "-"%char :: ws ++ "["%char :: c :: tail ->
        run1 is_space ws ->
        c <> "."%char -> c <> " "%char -> c <> "x"%char ->
        re_match WORKLOG_RX line = None)
  /\ (re_match WORKLOG_RX line = None
      \/ exists g, re_match WORKLOG_RX line = Some g /\ worklog_parts line g).
Proof.
  intros line. split; [|split].
  - intros g Hm. split; [|now apply re_match_parts].
    destruct (re_match_head _ Hm) as (ws & st & tail & _ & _ & Hst & Hg).
    exists st. split; [assumption|]. now apply is_state_spec.
  - intros ws c tail -> [_ Hws] H1 H2 H3.
    destruct (re_match WORKLOG_RX _) as [g|] eqn:Hm; [|reflexivity].
    exfalso.
    destruct (re_match_head _ Hm) as (ws' & st & tail' & E & [_ Hws'] & Hst & _).
    injection E as E.
    apply run_unique with (p := is_space) in E as (_ & _ & E);
      try assumption; try reflexivity.
    injection E as -> _. apply is_state_spec in Hst. tauto.
  - destruct (re_match WORKLOG_RX line) as [g|] eqn:Hm; [right|now left].
    exists g. split; [reflexivity|now apply re_match_parts].
Qed.

Lemma C7_state_field_witness :
  (exists st, Some (lit " ") = Some [st]
              /\ (st = "." \/ st = " " \/ st = "x")%char)
  /\ re_match WORKLOG_RX (lit "- [o] fix bug - PROJ-1 [...]") = None.
Proof.
  split.
  - apply (C7_state_field_and_all_or_nothing (lit "- [ ] fix bug - PROJ-1 [...]"))
      with (g := mkGroups (Some (lit " ")) (Some []) (Some (lit "fix bug"))
                          None (Some (lit "PROJ-1")) (Some (lit "..."))).
    reflexivity.
  - apply (C7_state_field_and_all_or_nothing (lit "- [o] fix bug - PROJ-1 [...]"))
      with (ws := lit " ") (c := "o"%char) (tail := lit "] fix bug - PROJ-1 [...]");
      try reflexivity; try discriminate.
    split; [discriminate|reflexivity].
Defined.

(** ** Configuration errors *)

(** C8. Whatever the sub-command, when the server or the user is not
    configured (neither the option nor the environment variable gives it), or
    the keyring has no password for the resolved pair, [main] ends in
    [sys.exit] with one of the three messages, so the process status is 1,
    and the world is as it was: no call reached the tracker, nothing was read
    or printed. *)
Theorem C8_configuration_errors_are_fatal :
  forall ext server_opt user_opt (c : command) w,
    (server_opt = None /\ getenv ext (lit "JIRA_SERVER") = None)
    \/ (user_opt = None /\ getenv ext (lit "JIRA_USER") = None)
    \/ (exists s u,
          jira_server (parse_args ext server_opt user_opt (Some c)) = Some s
          /\ jira_user (parse_args ext server_opt user_opt (Some c)) = Some u
          /\ keyring_get_password ext s u = None) ->
    exists msg,
      main ext server_opt user_opt (Some c) w = (Raise (SystemExit (ExitMsg msg)), w)
      /\ exit_status (fst (main ext server_opt user_opt (Some c) w)) = 1
      /\ calls (snd (main ext server_opt user_opt (Some c) w)) = calls w
      /\ (msg = lit "Please set JIRA_SERVER or provide --jira-server argument"
          \/ msg = lit "Please set JIRA_USER or provide --jira-user argument"
          \/ exists s u,
               msg = lit "Please add password to keyring (run "
                     ++ ["034"%char] ++ lit "keyring set " ++ s ++ lit " " ++ u
                     ++ ["034"%char] ++ lit ")").
Proof.
  intros ext server_opt user_opt c w H.
  unfold main, make_jira_client, bind, sys_exit, raise, parse_args in *.
  cbn [func jira_server jira_user] in *.
  destruct (option_value server_opt (server_arg ext)) as [s|] eqn:Hs.
  2:{ eexists. repeat split. now left. }
  destruct (option_value user_opt (user_arg ext)) as [u|] eqn:Hu.
  2:{ eexists. repeat split. right. now left. }
  destruct H as [[-> Hs']|[[-> Hu']|(s' & u' & Es & Eu & Hk)]].
  - cbn in Hs. unfold server_arg in Hs. congruence.
  - cbn in Hu. unfold user_arg in Hu. congruence.
  - injection Es as <-. injection Eu as <-. rewrite Hk.
    eexists. repeat split. right. right. eauto.
Qed.

Lemma C8_configuration_witness :
  exists msg,
    main ext_ok None None (Some CmdVimlog)
         (world_with (lit "- [ ] fix bug - PROJ-1 [...]"))
    = (Raise (SystemExit (ExitMsg msg)),
       world_with (lit "- [ ] fix bug - PROJ-1 [...]"))
    /\ msg <> [].
Proof.
  destruct (@C8_configuration_errors_are_fatal ext_ok None None CmdVimlog
              (world_with (lit "- [ ] fix bug - PROJ-1 [...]")))
    as (msg & Hrun & _ & _ & Hmsg).
  - left. split; reflexivity.
  - exists msg. split; [exact Hrun|].
    destruct Hmsg as [->|[->|(s & u & ->)]]; discriminate.
Defined.

(** ** End to end

    With server, user and password configured, [main] on the sample line of
    the specification connects, submits one worklog and prints the ticked
    line. *)
Example main_vimlog_sample_line :
  main ext_configured None None (Some CmdVimlog)
       (world_with (lit "- [ ] fix bug - PROJ-1 [...]"))
  = (Ok tt,
     mkWorld [] [lit "- [x] fix bug - PROJ-1 [...]"]
             [JIRA (lit "https://jira") (lit "me") (lit "secret");
              AddWorklog (Some (lit "PROJ-1")) (lit "90m") (Some (lit "fix bug"))]).
Proof. reflexivity. Qed.

(** Without a sub-command [main] prints the help text and exits with
    status 1, before any configuration is looked at. *)
Example main_without_command ext w :
  main ext None None None w
  = (Raise (SystemExit (ExitCode 1)),
     mkWorld (stdin w) (stdout w ++ [help_text ext]) (calls w)).
Proof. reflexivity. Qed.

(** * Further properties of the code *)

(** ** Which lines the pattern accepts *)

(** A line cut into the pieces of the pattern is in its language. *)
Lemma worklog_parts_shape line g : worklog_parts line g -> worklog_shape line.
Proof.
  intros (ws1 & st & ws2 & prefix & ws3 & comment & ws4 & time & ws5
          & up & dg & ws6 & digs & tracking & rest & -> & [? ?] & Hst & Hws2
          & Hpre & [? ?] & [? ?] & [? ?] & Htime & Hws5 & [? ?] & [? ?]
          & [? ?] & Hdigs & Htr & _).
  unfold worklog_shape.
  exists (lit "-" ++ ws1 ++ lit "[" ++ [st] ++ lit "]" ++ ws2
          ++ prefix ++ ws3 ++ comment ++ ws4 ++ time_text time ++ ws5
          ++ lit "-" ++ lit " " ++ (up ++ lit "-" ++ dg) ++ ws6
          ++ lit "[" ++ digs ++ tracking ++ lit "]"), rest.
  destruct Htime as [->|(d & -> & [? ?])];
    (eexists; split; [repeat rewrite <- app_assoc; reflexivity|]);
    cbv [WORKLOG_RX seq].
  all: apply M_Seq with (g1 := no_groups); [apply M_Lit|].
  all: eapply M_Seq; [now apply M_Plus|].
  all: eapply M_Seq; [apply M_Lit|].
  all: eapply M_Seq; [apply M_Group; now apply M_Cls|].
  all: eapply M_Seq; [apply M_Lit|].
  all: eapply M_Seq; [now apply M_Star|].
  all: eapply M_Seq; [apply M_Group; now apply M_Star|].
  all: eapply M_Seq; [now apply M_Plus|].
  all: eapply M_Seq; [apply M_Group; now apply M_Plus|].
  all: eapply M_Seq; [now apply M_Plus|].
  1: eapply M_Seq; [apply M_OptSkipped|].
  2: eapply M_Seq;
       [apply M_OptTaken; apply M_Group;
        eapply (M_Seq (r1 := Lit "@") (s1 := ["@"%char]));
        [apply M_Lit|now apply M_Plus]|].
  all: eapply M_Seq; [now apply M_Star|].
  all: eapply M_Seq; [apply M_Lit|].
  all: eapply M_Seq; [apply M_Lit|].
  all: eapply M_Seq;
         [apply M_Group; eapply M_Seq; [now apply M_Plus|];
          eapply M_Seq; [apply M_Lit|now apply M_Plus]|].
  all: eapply M_Seq; [now apply M_Plus|].
  all: eapply M_Seq; [apply M_Lit|].
  all: eapply M_Seq; [now apply M_Star|].
  all: eapply M_Seq; [apply M_Group; now apply M_Star|].
  all: apply M_Lit.
Qed.

(** A line that can be cut into the pieces is matched. *)
Lemma worklog_parts_match line g :
  worklog_parts line g -> exists g', re_match WORKLOG_RX line = Some g'.
Proof.
  intros Hp. apply worklog_parts_shape in Hp.
  apply re_match_worklog_shape in Hp.
  destruct (re_match WORKLOG_RX line) as [g'|]; [eauto|congruence].
Qed.

(** X1. [re.match] accepts a line exactly when the line can be cut into the
    pieces of the pattern: dash, whitespace, bracketed state, optional
    whitespace, prefix, whitespace, comment, whitespace, optional time,
    optional whitespace, dash and space, issue key, whitespace, bracketed
    digits and tracking marks, then anything. *)
Theorem X1_match_iff_line_has_all_parts : forall line,
  (exists g, re_match WORKLOG_RX line = Some g)
  <-> (exists g, worklog_parts line g).
Proof.
  intros line. split.
  - intros [g Hm]. exists g. now apply re_match_parts.
  - intros [g Hp]. eapply worklog_parts_match; eauto.
Qed.

(** ** Lines that are already ticked *)

(** A match on a line that begins with the ticked box has state [x]. *)
Lemma ticked_line_state t m :
  re_match WORKLOG_RX (lit "- [x]" ++ t) = Some m -> g_state m = Some (lit "x").
Proof.
  intros Hm.
  destruct (re_match_head _ Hm) as (ws & st & tail & E & [_ Hws] & _ & Hg).
  cbn in E. injection E as E. symmetry in E.
  destruct (@run_unique is_space ws [" "%char] "["%char "["%char
              (st :: "]"%char :: tail) ("x"%char :: "]"%char :: t)
              Hws eq_refl eq_refl eq_refl E) as (_ & _ & E').
  injection E' as -> _. exact Hg.
Qed.


(** Ticking a matched line that starts with dash, space, bracket gives a
    line that still matches. *)
Lemma ticked_line_matches line m :
  re_match WORKLOG_RX line = Some m ->
  (exists c, firstn 5 line = lit "- [" ++ [c] ++ lit "]") ->
  exists m', re_match WORKLOG_RX (lit "- [x]" ++ skipn 5 line) = Some m'.
Proof.
  intros Hm [c Hc].
  cut (exists g, worklog_parts (lit "- [x]" ++ skipn 5 line) g);
    [intros [g Hg]; eapply worklog_parts_match; eauto|].
  apply re_match_parts in Hm.
  destruct Hm as (ws1 & st & ws2 & prefix & ws3 & comment & ws4 & time & ws5
                  & up & dg & ws6 & digs & tracking & rest & -> & Hws1 & Hst & H).
  assert (E : ws1 = [" "%char]).
  { destruct Hws1 as [Hne Hall]. destruct ws1 as [|w [|w2 ws1]]; [congruence| |].
    - cbn in Hc. now injection Hc as <- _.
    - cbn in Hc, Hall. injection Hc as _ E.
      apply andb_prop in Hall as [_ Hall]. apply andb_prop in Hall as [Hw2 _].
      now rewrite E in Hw2. }
  subst ws1. eexists.
  exists [" "%char], "x"%char, ws2, prefix, ws3, comment, ws4, time, ws5,
         up, dg, ws6, digs, tracking, rest.
  split; [reflexivity|]. split; [split; [discriminate|reflexivity]|].
  split; [reflexivity|].
  do 12 (destruct H as [? H]; split; [assumption|]). reflexivity.
Qed.

(** X3. Running [vimlog] again on the line it printed after a successful
    submission reports the line as done and submits nothing, provided the
    original line began with dash, space, bracket, state, bracket. *)
Theorem X3_second_run_reports_done :
  forall ext line m tracking,
    re_match WORKLOG_RX line = Some m ->
    g_state m <> Some (lit "x") ->
    g_tracking m = Some tracking ->
    0 < accumulate tracking ->
    tracker_accepts ext (AddWorklog (g_issue m)
                           (format_int (accumulate tracking) ++ lit "m")
                           (g_comment m)) = true ->
    (exists c, firstn 5 line = lit "- [" ++ [c] ++ lit "]") ->
    exists printed submitted,
      vimlog ext (world_with line) = (Ok tt, mkWorld [] [printed] [submitted])
      /\ vimlog ext (mkWorld [printed] [] [submitted])
         = (Ok tt, mkWorld [] [printed ++ lit "!"] [submitted]).
Proof.
  intros ext line m tracking Hm Hx Ht Hpos Hacc Hstd.
  exists (lit "- [x]" ++ skipn 5 line). eexists. split.
  - unfold world_with. rewrite (vimlog_submit ext _ _ _ _ Hm Hx Ht Hpos).
    cbv zeta. rewrite Hacc. reflexivity.
  - destruct (ticked_line_matches _ Hm Hstd) as [m' Hm'].
    apply (vimlog_done ext _ [] [] _ Hm'). eapply ticked_line_state; eauto.
Qed.

Lemma X3_second_run_witness :
  vimlog ext_ok (mkWorld [lit "- [x] fix bug - PROJ-1 [...]"] []
                         [AddWorklog (Some (lit "PROJ-1")) (lit "90m")
                                     (Some (lit "fix bug"))])
  = (Ok tt, mkWorld [] [lit "- [x] fix bug - PROJ-1 [...]!"]
                    [AddWorklog (Some (lit "PROJ-1")) (lit "90m")
                                (Some (lit "fix bug"))]).
Proof.
  assert (Hstd : exists c, firstn 5 (lit "- [ ] fix bug - PROJ-1 [...]")
                           = lit "- [" ++ [c] ++ lit "]")
    by (exists " "%char; reflexivity).
  assert (Hx : Some (lit " ") <> Some (lit "x")) by discriminate.
  destruct (@X3_second_run_reports_done ext_ok
              (lit "- [ ] fix bug - PROJ-1 [...]")
              (mkGroups (Some (lit " ")) (Some []) (Some (lit "fix bug"))
                        None (Some (lit "PROJ-1")) (Some (lit "...")))
              (lit "...") eq_refl Hx eq_refl eq_refl eq_refl Hstd)
    as (printed & submitted & H1 & H2).
  injection H1 as <- <-. exact H2.
Defined.

(** ** What a run of [vimlog] can do *)


(** X5. When the tracker rejects the submission, [vimlog] raises its error,
    the process status is 1, and the line is not printed: it stays unticked
    in the document. *)
Theorem X5_rejected_submission_prints_nothing :
  forall ext line m tracking rest out cs,
    re_match WORKLOG_RX line = Some m ->
    g_state m <> Some (lit "x") ->
    g_tracking m = Some tracking ->
    0 < accumulate tracking ->
    tracker_accepts ext (AddWorklog (g_issue m)
                           (format_int (accumulate tracking) ++ lit "m")
                           (g_comment m)) = false ->
    vimlog ext (mkWorld (line :: rest) out cs)
    = (Raise JIRAError,
       mkWorld rest out
               (cs ++ [AddWorklog (g_issue m)
                         (format_int (accumulate tracking) ++ lit "m")
                         (g_comment m)]))
    /\ exit_status (fst (vimlog ext (mkWorld (line :: rest) out cs))) = 1.
Proof.
  intros ext line m tracking rest out cs Hm Hx Ht Hpos Hrej.
  rewrite (vimlog_submit ext _ _ _ _ Hm Hx Ht Hpos). cbv zeta.
  rewrite Hrej. auto.
Qed.

Lemma X5_rejected_witness :
  vimlog (mkExternals (fun _ => false) (fun _ => []) (fun _ _ => None)
                      (fun _ => None) [])
         (world_with (lit "- [ ] fix bug - PROJ-1 [...]"))
  = (Raise JIRAError,
     mkWorld [] [] [AddWorklog (Some (lit "PROJ-1")) (lit "90m")
                               (Some (lit "fix bug"))]).
Proof.
  apply (@X5_rejected_submission_prints_nothing
           (mkExternals (fun _ => false) (fun _ => []) (fun _ _ => None)
                        (fun _ => None) [])
           (lit "- [ ] fix bug - PROJ-1 [...]")
           (mkGroups (Some (lit " ")) (Some []) (Some (lit "fix bug"))
                     None (Some (lit "PROJ-1")) (Some (lit "...")))
           (lit "...") [] [] []); try reflexivity.
  discriminate.
Defined.

(** X6. Every worklog [vimlog] submits is well formed: the issue is a key of
    upper-case letters, a dash and digits, the comment is a non-empty text of
    comment characters, and [timeSpent] is a formatted positive number
    followed by [m]. *)
Theorem X6_submitted_entries_are_well_formed : forall ext w c,
  In c (calls (snd (vimlog ext w))) ->
  In c (calls w)
  \/ exists up dg comment n,
       c = AddWorklog (Some (up ++ lit "-" ++ dg))
                      (format_int n ++ lit "m") (Some comment)
       /\ run1 is_upper up /\ run1 is_digit dg
       /\ run1 is_comment comment /\ 0 < n.
Proof.
  intros ext [[|line rest] out cs] c; [cbn; auto|].
  destruct (re_match WORKLOG_RX line) as [m|] eqn:Hm.
  2:{ rewrite (vimlog_no_match ext _ _ _ _ Hm). cbn. auto. }
  destruct (state_is_x_dec m) as [Hx|Hx].
  { rewrite (vimlog_done ext _ _ _ _ Hm Hx). cbn. auto. }
  destruct (re_match_tracking _ Hm) as [t Ht].
  destruct (Z_lt_le_dec 0 (accumulate t)) as [Hpos|Hzero].
  2:{ rewrite (vimlog_nothing_to_log ext _ _ _ _ Hm Hx Ht Hzero). cbn. auto. }
  rewrite (vimlog_submit ext _ _ _ _ Hm Hx Ht Hpos). cbv zeta.
  assert (Hin : In c (cs ++ [AddWorklog (g_issue m)
                               (format_int (accumulate t) ++ lit "m")
                               (g_comment m)]) ->
                In c cs
                \/ exists up dg comment n,
                     c = AddWorklog (Some (up ++ lit "-" ++ dg))
                                    (format_int n ++ lit "m") (Some comment)
                     /\ run1 is_upper up /\ run1 is_digit dg
                     /\ run1 is_comment comment /\ 0 < n).
  { intros Hc. apply in_app_or in Hc as [Hc|[<-|[]]]; [now left|right].
    apply re_match_parts in Hm.
    destruct Hm as (ws1 & st & ws2 & prefix & ws3 & comment & ws4 & time & ws5
                    & up & dg & ws6 & digs & tracking & rest' & _ & _ & _ & _
                    & _ & _ & Hcm & _ & _ & _ & Hup & Hdg & _ & _ & _ & ->).
    exists up, dg, comment, (accumulate t). cbn. auto. }
  destruct (tracker_accepts ext _); cbn; exact Hin.
Qed.

Lemma X6_well_formed_witness :
  exists up dg comment n,
    AddWorklog (Some (lit "PROJ-1")) (lit "90m") (Some (lit "fix bug"))
    = AddWorklog (Some (up ++ lit "-" ++ dg)) (format_int n ++ lit "m")
                 (Some comment)
    /\ run1 is_upper up /\ run1 is_digit dg /\ run1 is_comment comment /\ 0 < n.
Proof.
  destruct (@X6_submitted_entries_are_well_formed ext_ok
              (world_with (lit "- [ ] fix bug - PROJ-1 [...]"))
              (AddWorklog (Some (lit "PROJ-1")) (lit "90m") (Some (lit "fix bug"))))
    as [[]|H].
  - cbn. now left.
  - exact H.
Defined.

(** ** More on the Duration Accumulator *)

Lemma spec_weight_non_mark c :
  one_of ["."; ";"; ","]%char c = false -> spec_weight c = 0.
Proof.
  unfold one_of, spec_weight. cbn [existsb].
  destruct (Ascii.eqb c "."), (Ascii.eqb c ";"), (Ascii.eqb c ",");
    cbn; congruence.
Qed.

(** X7. Minutes add up over concatenation, characters that are not one of
    the three marks can be dropped without changing the total, and the total
    is at most 30 per character. *)
Theorem X7_accumulate_is_additive_and_bounded : forall a b : str,
  accumulate (a ++ b) = accumulate a + accumulate b
  /\ accumulate (filter (one_of ["."; ";"; ","]%char) a) = accumulate a
  /\ accumulate a <= 30 * Z.of_nat (List.length a).
Proof.
  intros a b. rewrite !accumulate_weight_sum. repeat split.
  - induction a as [|c a IH]; cbn [app spec_weight_sum]; lia.
  - induction a as [|c a IH]; [reflexivity|]. cbn [filter].
    destruct (one_of _ c) eqn:E; cbn [spec_weight_sum]; [now rewrite IH|].
    rewrite (spec_weight_non_mark _ E). lia.
  - induction a as [|c a IH]; [cbn; lia|].
    cbn [spec_weight_sum List.length]. rewrite Nat2Z.inj_succ.
    assert (spec_weight c <= 30).
    { unfold spec_weight. repeat destruct (Ascii.eqb c _); lia. }
    lia.
Qed.

(** ** The other commands *)

(** X8. [log] leaves standard input and output alone and looks the issue up
    first.  When the lookup is rejected, that is the only call made and the
    error is raised; otherwise exactly one worklog follows, carrying the
    amount and the comment as given, and [log] returns iff it is accepted. *)
Theorem X8_log_submits_only_after_lookup : forall ext issue amount comment w,
  let entry := AddWorklog (Some issue) amount (Some comment) in
  let r := fst (log ext issue amount comment w) in
  let w' := snd (log ext issue amount comment w) in
  stdin w' = stdin w /\ stdout w' = stdout w
  /\ (if tracker_accepts ext (Issue issue)
      then calls w' = calls w ++ [Issue issue; entry]
           /\ (r = Ok tt <-> tracker_accepts ext entry = true)
           /\ (r = Raise JIRAError <-> tracker_accepts ext entry = false)
      else calls w' = calls w ++ [Issue issue] /\ r = Raise JIRAError).
Proof.
  intros ext issue amount comment w. unfold log, bind, call_tracker.
  cbn [stdin stdout calls].
  destruct (tracker_accepts ext (Issue issue)); cbn [fst snd stdin stdout calls].
  - destruct (tracker_accepts ext (AddWorklog _ _ _));
      cbn [fst snd stdin stdout calls]; rewrite <- app_assoc;
      repeat split; auto; discriminate.
  - auto.
Qed.

Lemma print_issues_prints_each l : forall w,
  print_issues l w
  = (Ok tt, mkWorld (stdin w)
                    (stdout w ++ map (fun i => fst i ++ lit ": " ++ snd i) l)
                    (calls w)).
Proof.
  induction l as [|[key summary] l IH]; intros [i o c]; cbn [print_issues].
  - unfold ret. cbn. now rewrite app_nil_r.
  - unfold bind, print. cbn [stdin stdout calls]. rewrite IH.
    cbn [stdin stdout calls map fst snd]. now rewrite <- app_assoc.
Qed.

(** X9. [issues] makes one search call.  When it is accepted, one line per
    issue found is printed, in the order found, as key, colon, space,
    summary; when it is rejected the error is raised and nothing is
    printed. *)
Theorem X9_issues_prints_one_line_per_issue : forall ext w,
  let jql := lit "assignee = currentUser()" in
  issues ext w
  = if tracker_accepts ext (SearchIssues jql)
    then (Ok tt,
          mkWorld (stdin w)
                  (stdout w ++ map (fun i => fst i ++ lit ": " ++ snd i)
                                   (tracker_search ext jql))
                  (calls w ++ [SearchIssues jql]))
    else (Raise JIRAError,
          mkWorld (stdin w) (stdout w) (calls w ++ [SearchIssues jql])).
Proof.
  intros ext w jql. unfold issues, bind, call_tracker. fold jql.
  destruct (tracker_accepts ext (SearchIssues jql)); [|reflexivity].
  now rewrite print_issues_prints_each.
Qed.

(** ** [main] *)

(** X10. With server, user and password resolved, [main] first opens the
    connection with exactly these three, and runs the sub-command only when
    the connection is accepted; a rejected connection raises the error
    before the sub-command reads or prints anything. *)
Theorem X10_main_connects_then_runs :
  forall ext server_opt user_opt (c : command) w s u p,
    jira_server (parse_args ext server_opt user_opt (Some c)) = Some s ->
    jira_user (parse_args ext server_opt user_opt (Some c)) = Some u ->
    keyring_get_password ext s u = Some p ->
    let connected := mkWorld (stdin w) (stdout w) (calls w ++ [JIRA s u p]) in
    main ext server_opt user_opt (Some c) w
    = if tracker_accepts ext (JIRA s u p)
      then run_command ext c connected
      else (Raise JIRAError, connected).
Proof.
  intros ext server_opt user_opt c w s u p Hs Hu Hp connected.
  unfold main, make_jira_client, bind, parse_args in *.
  cbn [func jira_server jira_user] in *.
  rewrite Hs, Hu, Hp. unfold call_tracker.
  destruct (tracker_accepts ext (JIRA s u p)); reflexivity.
Qed.

Lemma X10_main_connects_witness :
  main ext_configured None None (Some CmdIssues) (mkWorld [] [] [])
  = (Ok tt, mkWorld [] []
                    [JIRA (lit "https://jira") (lit "me") (lit "secret");
                     SearchIssues (lit "assignee = currentUser()")]).
Proof.
  apply (@X10_main_connects_then_runs ext_configured None None CmdIssues
           (mkWorld [] [] []) (lit "https://jira") (lit "me") (lit "secret"));
    reflexivity.
Defined.

(** X11. When both options are given on the command line, the environment
    plays no part: [main] behaves the same whatever the variables hold. *)
Theorem X11_options_override_environment :
  forall accepts search keyring env env' help s u (c : command) w,
    main (mkExternals accepts search keyring env help) (Some s) (Some u) (Some c) w
    = main (mkExternals accepts search keyring env' help) (Some s) (Some u) (Some c) w.
Proof.
  intros accepts search keyring env env' help s u c w.
  unfold main, make_jira_client, bind. cbn [func parse_args option_value
    jira_server jira_user keyring_get_password].
  destruct (keyring s u) as [p|]; [|reflexivity].
  unfold call_tracker. cbn [tracker_accepts].
  destruct (accepts (JIRA s u p)); [|reflexivity].
  destruct c; reflexivity.
Qed.

(** ** The [timeSpent] text *)

(** X12. The [timeSpent] text determines the minutes: two totals that are
    formatted to the same text are equal. *)
Theorem X12_time_spent_determines_minutes : forall a b : Z,
  format_int a ++ lit "m" = format_int b ++ lit "m" -> a = b.
Proof.
  intros a b H. apply app_inv_tail in H. unfold format_int, lit in H.
  apply (f_equal string_of_list_ascii) in H.
  rewrite !string_of_list_ascii_of_string in H.
  apply (f_equal NilEmpty.int_of_string) in H.
  rewrite !NilEmpty.isi in H. injection H as H.
  now apply DecimalZ.to_int_inj.
Qed.

Lemma X12_time_spent_witness : accumulate (lit ";;") = accumulate (lit ".").
Proof.
  apply (X12_time_spent_determines_minutes
           (accumulate (lit ";;")) (accumulate (lit "."))).
  reflexivity.
Defined.

(** ** Command registration *)

Lemma getattr_args_decorate decls func :
  getattr_args (decorate decls func) = getattr_args func ++ rev decls.
Proof.
  induction decls as [|d decls IH]; cbn [decorate fold_right rev].
  - now rewrite app_nil_r.
  - unfold arg at 1. cbn [getattr_args f_args]. fold (decorate decls func).
    now rewrite IH, app_assoc.
Qed.

(** X13. For a function with a docstring or an explicit help, [command]
    creates the sub-parser and declares on it first the user option, then
    the server option, then the arguments of the [arg] decorators in the
    order they are written above the function, top to bottom. *)
Theorem X13_arguments_are_declared_in_source_order :
  forall ext names kw func decls,
    f_args func = None ->
    kw_in (lit "help") kw = true \/ f_doc func <> None ->
    exists func' sp,
      command_decorator ext names kw (decorate decls func) = Some (func', sp)
      /\ sp_arguments sp
         = user_arg_decl (user_arg ext) :: server_arg_decl (server_arg ext)
           :: decls
      /\ sp_func sp = func'
      /\ f_name func' = f_name func /\ f_doc func' = f_doc func.
Proof.
  intros ext names kw func decls Hnone Hhelp.
  assert (Hdoc : f_doc (decorate decls func) = f_doc func).
  { clear. induction decls; [reflexivity|exact IHdecls]. }
  assert (Hname : f_name (decorate decls func) = f_name func).
  { clear. induction decls; [reflexivity|exact IHdecls]. }
  assert (Hargs : rev (getattr_args
                         (arg (user_arg_decl (user_arg ext))
                            (arg (server_arg_decl (server_arg ext))
                               (decorate decls func))))
                  = user_arg_decl (user_arg ext)
                    :: server_arg_decl (server_arg ext) :: decls).
  { unfold arg. cbn [getattr_args f_args]. rewrite getattr_args_decorate.
    unfold getattr_args at 1. rewrite Hnone. cbn [app].
    rewrite !rev_app_distr, rev_involutive. reflexivity. }
  unfold command_decorator. cbv zeta.
  destruct (kw_in (lit "help") kw) eqn:Hin.
  - eexists _, _. split; [reflexivity|]. cbn [sp_arguments sp_func].
    repeat split; auto.
  - destruct Hhelp as [Hhelp|Hhelp]; [discriminate|].
    change (f_doc (arg _ (arg _ (decorate decls func))))
      with (f_doc (decorate decls func)).
    rewrite Hdoc. destruct (f_doc func) as [doc|]; [|congruence].
    eexists _, _. split; [reflexivity|]. cbn [sp_arguments sp_func].
    repeat split; auto.
Qed.

Lemma X13_log_arguments_witness :
  exists func' sp,
    command_decorator ext_ok [] [(lit "aliases", KList [lit "l"])]
                      (decorate log_arg_decls log_func) = Some (func', sp)
    /\ map ad_args (sp_arguments sp)
       = [[lit "--jira-user"; lit "-u"]; [lit "--jira-server"; lit "-j"];
          [lit "issue"]; [lit "amount"]; [lit "comment"]].
Proof.
  destruct (@X13_arguments_are_declared_in_source_order ext_ok []
              [(lit "aliases", KList [lit "l"])] log_func log_arg_decls
              eq_refl)
    as (func' & sp & Hreg & Hargs & _).
  - right. discriminate.
  - exists func', sp. split; [exact Hreg|]. now rewrite Hargs.
Defined.

Lemma first_line_no_newline doc : ~ In "010"%char (first_line doc).
Proof.
  induction doc as [|c doc IH]; cbn [first_line]; [tauto|].
  destruct (Ascii.eqb_spec c "010"); [tauto|].
  cbn [In]. intros [E|E]; [now subst|tauto].
Qed.

Lemma first_line_prefix doc :
  doc = first_line doc
  \/ exists rest, doc = first_line doc ++ "010"%char :: rest.
Proof.
  induction doc as [|c doc IH]; cbn [first_line]; [now left|].
  destruct (Ascii.eqb_spec c "010") as [->|_].
  - right. now exists doc.
  - destruct IH as [IH|[rest IH]].
    + left. now rewrite <- IH.
    + right. exists rest. cbn [app]. now rewrite <- IH.
Qed.

Lemma kw_get_set k v kw : kw_get k (kw_set k v kw) = Some v.
Proof.
  induction kw as [|[k' v'] kw IH]; cbn [kw_set kw_get].
  - unfold str_eqb. destruct (list_eq_dec ascii_dec k k); congruence.
  - destruct (str_eqb k' k) eqn:E; cbn [kw_get]; now rewrite E.
Qed.

(** X14. The sub-parser is named after the function unless [command] was
    given a name.  An explicit help is kept and the keywords are passed on
    as they are; without one the help is the docstring up to its first
    newline, and a function with neither docstring nor help is not
    registered. *)
Theorem X14_name_and_help_defaults : forall ext names kw func,
  match command_decorator ext names kw func with
  | Some (func', sp) =>
      sp_args sp = (match names with [] => [f_name func] | _ => names end)
      /\ (if kw_in (lit "help") kw then sp_kw sp = kw
          else exists doc,
                 f_doc func = Some doc
                 /\ kw_get (lit "help") (sp_kw sp) = Some (KStr (first_line doc))
                 /\ ~ In "010"%char (first_line doc)
                 /\ (doc = first_line doc
                     \/ exists rest, doc = first_line doc ++ "010"%char :: rest))
  | None => kw_in (lit "help") kw = false /\ f_doc func = None
  end.
Proof.
  intros ext names kw func. unfold command_decorator. cbv zeta.
  change (f_doc (arg _ (arg _ func))) with (f_doc func).
  change (f_name (arg _ (arg _ func))) with (f_name func).
  destruct (kw_in (lit "help") kw) eqn:Hin.
  - cbn [sp_args sp_kw]. auto.
  - destruct (f_doc func) as [doc|]; [|auto].
    cbn [sp_args sp_kw]. split; [reflexivity|].
    exists doc. rewrite kw_get_set.
    auto using first_line_no_newline, first_line_prefix.
Qed.
